(** * The LCD driver of attendance-pi (src/attendance-pi/src/LCD.cpp)

    A shallow embedding of namespace [LCD]: the three control bits, the
    nibble framing on the I2C expander, the character table and the public
    display operations, with the properties of the driver proved about it.
    Two collaborators follow: [Clock::getDate] (Clock.cpp) and the response
    buffer of [HttpSend] (HttpSend.cpp).

    Conventions.
    - A [char] is modelled by its 8-bit pattern, a [Z] in [0, 256): plain
      [char] is unsigned on the ARM target of the bcm2835 library, and a
      conversion from [int] to [char] wraps modulo 256.
    - The bcm2835 library and libc are outside the sources.  Every call to
      them is recorded, in program order, in the [trace] of the world; what
      [bcm2835_i2c_begin] and [bcm2835_i2c_write] return is given by a
      [Transport], which may depend on everything that happened before.
    - A C++ function is a state transformer which returns normally, throws,
      or runs into undefined behaviour (reading a string past its buffer). *)

From Stdlib Require Import ZArith List Lia Bool String Ascii.
Import ListNotations.
Open Scope Z_scope.

(** ** Characters *)

Definition char := Z.

(** Conversion of an [int] to [char]. *)
Definition char_of_int (x : Z) : char := x mod 256.

Definition is_char (c : Z) : Prop := 0 <= c < 256.

(** The character codes of a string. *)
Definition chars (s : string) : list char :=
  map (fun a => Z.of_N (N_of_ascii a)) (list_ascii_of_string s).

(** A string literal as the array the compiler lays out: the character
    codes followed by the terminating null. *)
Definition literal (s : string) : list char := chars s ++ [0].

(** ** The outside world *)

(** The lines [printf] puts on the console.  Their text is assembled from
    the colour macros of ANSI.h, which is not among the sources, so a line
    is identified by its place in the code. *)
Inductive Banner : Type :=
| InitBanner      (* "[----] Initializing LCD..." *)
| InitFailBanner  (* "\r[FAIL\n" *)
| InitOkayBanner  (* "\r[OKAY\n" *)
| DestroyBanner   (* "[----] Destroying LCD..." *)
| DestroyOkayBanner.

Inductive Event : Type :=
| Printf (b : Banner)
| I2cBegin                       (* bcm2835_i2c_begin() *)
| I2cSetSlaveAddress (addr : Z)  (* bcm2835_i2c_setSlaveAddress(addr) *)
| I2cWrite (byte : char)         (* bcm2835_i2c_write(message, 1) *)
| I2cEnd                         (* bcm2835_i2c_end() *)
| Usleep (us : Z).               (* usleep(us) *)

(** What the I2C library answers.  [bcm2835_i2c_begin] returns non-zero on
    success; [bcm2835_i2c_write] returns a reason code, 0 for success. *)
Record Transport : Type := {
  i2c_begin_result : list Event -> Z;
  i2c_write_result : list Event -> char -> Z
}.

(** The globals of namespace LCD, and the history of external calls. *)
Record World : Type := {
  backlight : bool;   (* true = on *)
  regSelect : bool;   (* true = character register, false = command register *)
  readWrite : bool;   (* currently unused *)
  trace : list Event
}.

Inductive Outcome (A : Type) : Type :=
| Returned (a : A)
| Thrown (what : string)   (* std::runtime_error(what) *)
| Undefined.               (* undefined behaviour *)
Arguments Returned {A} a.
Arguments Thrown {A} what.
Arguments Undefined {A}.

Definition M (A : Type) : Type := World -> Outcome A * World.

Definition ret {A} (a : A) : M A := fun w => (Returned a, w).

Definition bind {A B} (m : M A) (k : A -> M B) : M B :=
  fun w =>
    match m w with
    | (Returned a, w') => k a w'
    | (Thrown s, w') => (Thrown s, w')
    | (Undefined, w') => (Undefined, w')
    end.

Definition throw {A} (what : string) : M A := fun w => (Thrown what, w).

Declare Scope lcd_scope.
Delimit Scope lcd_scope with lcd.
Notation "x <- m ;; k" := (bind m (fun x => k))
  (at level 100, m at next level, right associativity) : lcd_scope.
Notation "m ;; k" := (bind m (fun _ => k))
  (at level 100, right associativity) : lcd_scope.
Open Scope lcd_scope.

Definition log (e : Event) (w : World) : World :=
  {| backlight := backlight w; regSelect := regSelect w;
     readWrite := readWrite w; trace := trace w ++ [e] |}.

Definition call (e : Event) : M unit := fun w => (Returned tt, log e w).

Definition get_backlight : M bool := fun w => (Returned (backlight w), w).
Definition get_regSelect : M bool := fun w => (Returned (regSelect w), w).

Definition set_backlight (b : bool) : M unit := fun w =>
  (Returned tt,
   {| backlight := b; regSelect := regSelect w;
      readWrite := readWrite w; trace := trace w |}).

Definition set_regSelect (b : bool) : M unit := fun w =>
  (Returned tt,
   {| backlight := backlight w; regSelect := b;
      readWrite := readWrite w; trace := trace w |}).

Definition printf (b : Banner) : M unit := call (Printf b).
Definition usleep (us : Z) : M unit := call (Usleep us).

Definition bcm2835_i2c_begin (T : Transport) : M Z := fun w =>
  (Returned (i2c_begin_result T (trace w)), log I2cBegin w).

Definition bcm2835_i2c_setSlaveAddress (addr : Z) : M unit :=
  call (I2cSetSlaveAddress addr).

Definition bcm2835_i2c_write (T : Transport) (byte : char) : M Z := fun w =>
  (Returned (i2c_write_result T (trace w) byte), log (I2cWrite byte) w).

Definition bcm2835_i2c_end : M unit := call I2cEnd.

(** ** namespace LCD *)

Module LCD.

Definition I2C_SLAVE_ADDRESS : Z := 0x27.

Definition BACKLIGHT_BIT : Z := 8.  (* 0b00001000 *)
Definition ENABLE_BIT : Z := 4.     (* 0b00000100 *)
Definition RDWR_BIT : Z := 2.       (* 0b00000010 *)
Definition REGSELECT_BIT : Z := 1.  (* 0b00000001 *)

(** The label of the one case of [encodeChar] that is not an ASCII
    character: in the source it is the three bytes EF BF BD between
    quotes, a multi-character constant of type [int], whose value with gcc
    is the bytes read as a base-256 number. *)
Definition non_ascii_label : Z := 0xEFBFBD.

(** [char encodeChar(char c)]: the switch, one line per case. *)
Definition encodeChar (c : char) : char :=
  match c with
  | 32 => 0x20 (* ' ' *)  | 33 => 0x21 (* '!' *)  | 34 => 0x22 (* dquote *)
  | 35 => 0x23 (* '#' *)  | 36 => 0x24 (* '$' *)  | 37 => 0x25 (* '%' *)
  | 38 => 0x26 (* '&' *)  | 39 => 0x27 (* '\'' *) | 40 => 0x28 (* '(' *)
  | 41 => 0x29 (* ')' *)  | 42 => 0x2A (* '*' *)  | 43 => 0x2B (* '+' *)
  | 44 => 0x2C (* ',' *)  | 45 => 0x2D (* '-' *)  | 46 => 0x2E (* '.' *)
  | 47 => 0x2F (* '/' *)

  | 48 => 0x30 (* '0' *)  | 49 => 0x31 (* '1' *)  | 50 => 0x32 (* '2' *)
  | 51 => 0x33 (* '3' *)  | 52 => 0x34 (* '4' *)  | 53 => 0x35 (* '5' *)
  | 54 => 0x36 (* '6' *)  | 55 => 0x37 (* '7' *)  | 56 => 0x38 (* '8' *)
  | 57 => 0x39 (* '9' *)  | 58 => 0x3A (* ':' *)  | 59 => 0x3B (* ';' *)
  | 60 => 0x3C (* '<' *)  | 61 => 0x3D (* '=' *)  | 62 => 0x3E (* '>' *)
  | 63 => 0x3F (* '?' *)

  | 64 => 0x40 (* '@' *)  | 65 => 0x41 (* 'A' *)  | 66 => 0x42 (* 'B' *)
  | 67 => 0x43 (* 'C' *)  | 68 => 0x44 (* 'D' *)  | 69 => 0x45 (* 'E' *)
  | 70 => 0x46 (* 'F' *)  | 71 => 0x47 (* 'G' *)  | 72 => 0x48 (* 'H' *)
  | 73 => 0x49 (* 'I' *)  | 74 => 0x4A (* 'J' *)  | 75 => 0x4B (* 'K' *)
  | 76 => 0x4C (* 'L' *)  | 77 => 0x4D (* 'M' *)  | 78 => 0x4E (* 'N' *)
  | 79 => 0x4F (* 'O' *)

  | 80 => 0x50 (* 'P' *)  | 81 => 0x51 (* 'Q' *)  | 82 => 0x52 (* 'R' *)
  | 83 => 0x53 (* 'S' *)  | 84 => 0x54 (* 'T' *)  | 85 => 0x55 (* 'U' *)
  | 86 => 0x56 (* 'V' *)  | 87 => 0x57 (* 'W' *)  | 88 => 0x58 (* 'X' *)
  | 89 => 0x59 (* 'Y' *)  | 90 => 0x5A (* 'Z' *)  | 91 => 0x5B (* '[' *)
  | 0xEFBFBD => 0x5C (* the non-ASCII label, [non_ascii_label] *)
  | 93 => 0x5D (* ']' *)  | 94 => 0x5E (* '^' *)  | 95 => 0x5F (* '_' *)

  | 96 => 0x60 (* '`' *)  | 97 => 0x61 (* 'a' *)  | 98 => 0x62 (* 'b' *)
  | 99 => 0x63 (* 'c' *)  | 100 => 0x64 (* 'd' *) | 101 => 0x65 (* 'e' *)
  | 102 => 0x66 (* 'f' *) | 103 => 0x67 (* 'g' *) | 104 => 0x68 (* 'h' *)
  | 105 => 0x69 (* 'i' *) | 106 => 0x6A (* 'j' *) | 107 => 0x6B (* 'k' *)
  | 108 => 0x6C (* 'l' *) | 109 => 0x6D (* 'm' *) | 110 => 0x6E (* 'n' *)
  | 111 => 0x6F (* 'o' *)

  | 112 => 0x70 (* 'p' *) | 113 => 0x71 (* 'q' *) | 114 => 0x72 (* 'r' *)
  | 115 => 0x73 (* 's' *) | 116 => 0x74 (* 't' *) | 117 => 0x75 (* 'u' *)
  | 118 => 0x76 (* 'v' *) | 119 => 0x77 (* 'w' *) | 120 => 0x78 (* 'x' *)
  | 121 => 0x79 (* 'y' *) | 122 => 0x7A (* 'z' *) | 123 => 0x7B (* '{' *)
  | 124 => 0x7C (* '|' *) | 125 => 0x7D (* '}' *)
  (* Further characters omitted *)

  | _ => 0x3F (* Question mark *)
  end.

(** [int writeRaw(char byte)]: one single-byte I2C write; its status is
    the return value. *)
Definition writeRaw (T : Transport) (byte : char) : M Z :=
  bcm2835_i2c_write T byte.

(** [void write(char byte)]: the nibble write. *)
Definition write (T : Transport) (byte : char) : M unit :=
  (* Shift the byte *)
  let byte := char_of_int (Z.shiftl byte 4) in
  (* Set the backlight bit *)
  bl <- get_backlight ;;
  let byte := if bl then char_of_int (byte + BACKLIGHT_BIT) else byte in
  (* Set the register select bit *)
  rs <- get_regSelect ;;
  let byte := if rs then char_of_int (byte + REGSELECT_BIT) else byte in
  (* Write low *)
  writeRaw T byte ;;
  usleep 1500 ;;
  (* Write high *)
  writeRaw T (char_of_int (Z.lor byte ENABLE_BIT)) ;;
  usleep 1500 ;;
  (* Write low *)
  writeRaw T byte ;;
  usleep 1500.

(** Lines 181-188 of [writeChar]: what is done with the character code
    once [encodeChar] has produced it. *)
Definition writeChar_code (T : Transport) (ccode : char) : M unit :=
  (* Split the character into two messages *)
  let m1 := char_of_int (Z.shiftr (Z.land ccode 0xF0) 4) in
  let m2 := char_of_int (Z.land ccode 0x0F) in
  (* Set mode to character *)
  set_regSelect true ;;
  (* Write the two messages *)
  write T m1 ;;
  write T m2.

(** [void writeChar(char c)]. *)
Definition writeChar (T : Transport) (c : char) : M unit :=
  (* Get the character code *)
  let ccode := encodeChar c in
  writeChar_code T ccode.

(** [void writeMessage(char* message)].  [message] is the content of the
    buffer from the pointer on; the loop reads [message[i]] for i = 0, 1,
    ... and returns at the first null.  Reading beyond the buffer is
    undefined behaviour. *)
Fixpoint writeMessage (T : Transport) (message : list char) : M unit :=
  match message with
  | [] => fun w => (Undefined, w)
  | c :: rest =>
      (* Check if end of message *)
      if c =? 0 then ret tt
      else
        (* Write encoded character *)
        writeChar T c ;;
        (* Increment counter *)
        writeMessage T rest
  end.

(** [void clear()]. *)
Definition clear (T : Transport) : M unit :=
  (* Set mode to command *)
  set_regSelect false ;;
  (* Send the command *)
  write T 0 (* 0b0000 *) ;;
  write T 1 (* 0b0001 *).

(** [void home()]. *)
Definition home (T : Transport) : M unit :=
  (* Set mode to command *)
  set_regSelect false ;;
  (* Send the command *)
  write T 0 (* 0b0000 *) ;;
  write T 2 (* 0b0010 *).

(** [void goTo(int pos)]: the body is empty. *)
Definition goTo (pos : Z) : M unit := ret tt.

(** [void init()].  The test message is written by the call
    [writeMessage("TESTING TESTING",0)]; the only definition of
    [writeMessage] in the sources is the one above, which takes the
    string. *)
Definition init (T : Transport) : M unit :=
  printf InitBanner ;;
  (* Initialize the I2C connection *)
  ok <- bcm2835_i2c_begin T ;;
  if ok =? 0 then
    (* Failed to initialize I2C *)
    printf InitFailBanner ;;
    throw "Failed to initialize I2C"
  else
    (* Set the display slave address *)
    bcm2835_i2c_setSlaveAddress I2C_SLAVE_ADDRESS ;;
    (* Set display to command mode *)
    set_regSelect false ;;
    (* Send the initialization data *)
    write T 2 (* 0b0010 *) ;; usleep 5000 ;; (* Set mode to 4-bit *)
    write T 8 (* 0b1000 *) ;; usleep 5000 ;; (* 2 line, 5x8 character mode *)

    write T 0 (* 0b0000 *) ;;
    write T 8 (* 0b1000 *) ;; usleep 5000 ;; (* display off, cursor off, blink off *)

    write T 0 (* 0b0000 *) ;;
    write T 1 (* 0b0001 *) ;; usleep 5000 ;; (* Clear display, cursor home *)

    write T 0 (* 0b0000 *) ;;
    write T 6 (* 0b0110 *) ;; usleep 5000 ;; (* increment right, no shift *)

    write T 0 (* 0b0000 *) ;;
    write T 12 (* 0b1100 *) ;; usleep 5000 ;; (* Turn the display back on *)

    (* Turn the backlight on *)
    set_backlight true ;;
    (* Test message *)
    writeMessage T (literal "TESTING TESTING") ;;
    (* Success *)
    printf InitOkayBanner.

(** [void destroy()]. *)
Definition destroy : M unit :=
  printf DestroyBanner ;;
  bcm2835_i2c_end ;;
  printf DestroyOkayBanner.

End LCD.

(** ** namespace Clock (src/attendance-pi/src/Clock.cpp)

    Of this namespace [getDate] is modelled.  The clock thread and its
    start and stop ([init], [destroy], [clockThread]) are concurrency and
    real time and are left out. *)

Module Clock.

(** The fields of [struct tm] that the format of [getDate] reads, as
    [std::localtime] fills them: minutes 0-59, hours 0-23, day of the month
    1-31, months since January 0-11. *)
Record tm : Type := {
  tm_min : Z;
  tm_hour : Z;
  tm_mday : Z;
  tm_mon : Z
}.

Definition valid_tm (t : tm) : Prop :=
  0 <= tm_min t <= 59 /\ 0 <= tm_hour t <= 23 /\
  1 <= tm_mday t <= 31 /\ 0 <= tm_mon t <= 11.

(** A number below 100 as two decimal digits. *)
Definition two_digits (n : Z) : list char := [48 + n / 10; 48 + n mod 10].

(** The hour of the 12-hour clock, 1 to 12. *)
Definition hour12 (h : Z) : Z := if h mod 12 =? 0 then 12 else h mod 12.

(** [std::strftime] belongs to the C library.  It is modelled by its
    contract in the C standard, for the conversions the format of
    [getDate] uses: %m the month 01-12, %d the day of the month 01-31, %I
    the hour of the 12-hour clock 01-12, %M the minute 00-59.  Any other
    conversion is outside the model ([None]). *)
Definition conversion (spec : char) (t : tm) : option (list char) :=
  if spec =? 109 (* 'm' *) then Some (two_digits (tm_mon t + 1))
  else if spec =? 100 (* 'd' *) then Some (two_digits (tm_mday t))
  else if spec =? 73 (* 'I' *) then Some (two_digits (hour12 (tm_hour t)))
  else if spec =? 77 (* 'M' *) then Some (two_digits (tm_min t))
  else None.

(** The text a format stands for: conversions replaced, every other
    character copied. *)
Fixpoint expand (format : list char) (t : tm) : option (list char) :=
  match format with
  | [] => Some []
  | c :: rest =>
      if c =? 37 (* '%' *) then
        match rest with
        | [] => None
        | spec :: rest' =>
            match conversion spec t, expand rest' t with
            | Some field, Some text => Some (field ++ text)
            | _, _ => None
            end
        end
      else
        match expand rest t with
        | Some text => Some (c :: text)
        | None => None
        end
  end.

(** What [strftime] leaves in the array: the text and its terminating
    null if together they are not more than [maxsize] characters;
    otherwise it returns 0 and the content of the array is
    indeterminate. *)
Inductive Filled : Type :=
| Placed (text : list char)
| Indeterminate.

Definition strftime (maxsize : Z) (format : list char) (t : tm)
  : option Filled :=
  match expand format t with
  | Some text =>
      if Z.of_nat (List.length text) + 1 <=? maxsize
      then Some (Placed text)
      else Some Indeterminate
  | None => None
  end.

(** sizeof(buf) for [char buf[16]]. *)
Definition buf_size : Z := 16.

Definition date_format : list char := chars "%m/%d      %I:%M".

(** [std::string getDate()], for the broken-down time [t] that
    [std::localtime] returned: the string is built from [buf] as
    [strftime] left it; the value [strftime] returns is not looked at. *)
Definition getDate (t : tm) : option Filled :=
  strftime buf_size date_format t.

End Clock.

(** ** namespace HttpSend (src/attendance-pi/src/HttpSend.cpp)

    The HTTP library (rpi-http-request) is outside the sources.  What it
    does during [sendRequest] and the [processRequest] loop is, for this
    file, the sequence of callbacks it invokes; that sequence is a
    parameter.  A run in which the library throws, or in which responses
    stay pending for ever, is not covered.  The mutex is not modelled:
    calls are taken one at a time. *)

Module HttpSend.

(** The lines [printf] puts on the console. *)
Inductive Line : Type :=
| StatusLine (status : Z) (reason : list char) (* "HTTP Status: %d - %s" *)
| CompleteLine                                 (* "Http complete" *)
| AuthenticatingLine      (* "HttpSend authenticating user" *)
| AuthenticatedLine.      (* "HttpSend user authenticated" *)

(** The globals: the content of the stringstream [responseData], and the
    console. *)
Record State : Type := {
  responseData : list char;
  console : list Line
}.

Definition print (l : Line) (s : State) : State :=
  {| responseData := responseData s; console := console s ++ [l] |}.

(** [headersReady]: prints the status and empties [responseData]
    ([responseData.str(string())]). *)
Definition headersReady (status : Z) (reason : list char) (s : State) : State :=
  let s := print (StatusLine status reason) s in
  {| responseData := []; console := console s |}.

(** [receiveData]: appends the [sizeOfData] bytes at [data], here the list
    [data], to [responseData]. *)
Definition receiveData (data : list char) (s : State) : State :=
  {| responseData := responseData s ++ data; console := console s |}.

(** [responseComplete]. *)
Definition responseComplete (s : State) : State := print CompleteLine s.

(** One invocation of a callback by the library. *)
Inductive Callback : Type :=
| HeadersReady (status : Z) (reason : list char)
| ReceiveData (data : list char)
| ResponseComplete.

Definition invoke (cb : Callback) (s : State) : State :=
  match cb with
  | HeadersReady status reason => headersReady status reason s
  | ReceiveData data => receiveData data s
  | ResponseComplete => responseComplete s
  end.

(** [string authenticateUser(string userid)]: the request is sent with the
    user id as its body, the library runs until no response is pending,
    invoking the callbacks [library userid], and the content of
    [responseData] is returned. *)
Definition authenticateUser (library : list char -> list Callback)
    (userid : list char) (s : State) : list char * State :=
  let s := print AuthenticatingLine s in
  let s := fold_left (fun s cb => invoke cb s) (library userid) s in
  let s := print AuthenticatedLine s in
  (responseData s, s).

End HttpSend.

Import LCD.

(** ** Notions used to state the properties *)

(** [logs es w]: the world [w] after the external calls [es]. *)
Definition logs (es : list Event) (w : World) : World :=
  {| backlight := backlight w; regSelect := regSelect w;
     readWrite := readWrite w; trace := trace w ++ es |}.

(** The world after [regSelect = b], and after [backlight = b]. *)
Definition with_regSelect (b : bool) (w : World) : World :=
  {| backlight := backlight w; regSelect := b;
     readWrite := readWrite w; trace := trace w |}.

Definition with_backlight (b : bool) (w : World) : World :=
  {| backlight := b; regSelect := regSelect w;
     readWrite := readWrite w; trace := trace w |}.

(** The bytes handed to [bcm2835_i2c_write], in order. *)
Fixpoint i2c_bytes (es : list Event) : list char :=
  match es with
  | [] => []
  | I2cWrite b :: es' => b :: i2c_bytes es'
  | _ :: es' => i2c_bytes es'
  end.

(** The frame [[D7 D6 D5 D4][BL][EN][RW][RS]] of a 4-bit nibble, enable
    low. *)
Definition frame (bl rs : bool) (nibble : Z) : char :=
  16 * nibble + (if bl then 8 else 0) + (if rs then 1 else 0).

(** The latch: a frame sent with enable low, high, low, each followed by
    the 1.5 ms delay. *)
Definition pulse (f : char) : list Event :=
  [I2cWrite f; Usleep 1500;
   I2cWrite (Z.lor f ENABLE_BIT); Usleep 1500;
   I2cWrite f; Usleep 1500].

(** The external calls of one nibble write. *)
Definition nibble_events (bl rs : bool) (nibble : Z) : list Event :=
  pulse (frame bl rs nibble).

(** The two nibbles of an 8-bit code, high one first. *)
Definition high_nibble (code : char) : Z := Z.shiftr code 4.
Definition low_nibble (code : char) : Z := Z.land code 15.
Definition nibbles (code : char) : list Z := [high_nibble code; low_nibble code].

(** Nibble writes one after the other. *)
Fixpoint writes (T : Transport) (ns : list Z) : M unit :=
  match ns with
  | [] => ret tt
  | n :: ns' => write T n ;; writes T ns'
  end.

(** Three transports: every call succeeds; the bus starts but every write
    is refused (reason code 1, NACK); the bus does not start. *)
Definition good_transport : Transport :=
  {| i2c_begin_result := fun _ => 1; i2c_write_result := fun _ _ => 0 |}.
Definition nack_transport : Transport :=
  {| i2c_begin_result := fun _ => 1; i2c_write_result := fun _ _ => 1 |}.
Definition dead_transport : Transport :=
  {| i2c_begin_result := fun _ => 0; i2c_write_result := fun _ _ => 1 |}.

(** The globals as the program starts, before any call. *)
Definition boot : World :=
  {| backlight := false; regSelect := false; readWrite := false; trace := [] |}.

(** The integers [lo], [lo + 1], ..., [lo + n - 1]. *)
Definition zrange (lo : Z) (n : nat) : list Z :=
  map (fun k => lo + Z.of_nat k) (seq 0 n).

(** The external calls of [writeChar] for a character of code [code]. *)
Definition char_events (bl : bool) (code : char) : list Event :=
  nibble_events bl true (high_nibble code) ++
  nibble_events bl true (low_nibble code).

(** The nibbles of a message, in the order they are written. *)
Definition message_nibbles (s : list char) : list Z :=
  flat_map (fun c => nibbles (encodeChar c)) s.

(** The external calls of [writeMessage] for the characters [s]. *)
Definition message_events (bl : bool) (s : list char) : list Event :=
  flat_map (nibble_events bl true) (message_nibbles s).

(** The world in which a message leaves the driver: untouched if the
    message is empty, in character mode otherwise. *)
Definition after_message (s : list char) (w : World) : World :=
  match s with
  | [] => w
  | _ :: _ => with_regSelect true w
  end.

(** Instruction codes of the display controller, named as the comments of
    [init] name them. *)
Definition SET_4BIT_MODE : Z := 2.     (* 0b0010, a single nibble *)
Definition SET_2LINE_5X8 : Z := 8.     (* 0b1000, a single nibble *)
Definition DISPLAY_OFF : char := 0x08.  (* display off, cursor off, blink off *)
Definition CLEAR_DISPLAY : char := 0x01.
Definition RETURN_HOME : char := 0x02.
Definition ENTRY_MODE_RIGHT : char := 0x06. (* increment, no shift *)
Definition DISPLAY_ON : char := 0x0C.

(** The characters of the test message of [init]. *)
Definition test_message : list char := chars "TESTING TESTING".

(** The nibbles [init] writes in command mode, in program order. *)
Definition init_nibbles : list Z :=
  [SET_4BIT_MODE; SET_2LINE_5X8] ++ nibbles DISPLAY_OFF ++
  nibbles CLEAR_DISPLAY ++ nibbles ENTRY_MODE_RIGHT ++ nibbles DISPLAY_ON.

(** The external calls of the configuration part of [init]: the nibble
    writes and the 5 ms delays. *)
Definition init_command_events (bl : bool) : list Event :=
  nibble_events bl false 2 ++ [Usleep 5000] ++
  nibble_events bl false 8 ++ [Usleep 5000] ++
  nibble_events bl false 0 ++
  nibble_events bl false 8 ++ [Usleep 5000] ++
  nibble_events bl false 0 ++
  nibble_events bl false 1 ++ [Usleep 5000] ++
  nibble_events bl false 0 ++
  nibble_events bl false 6 ++ [Usleep 5000] ++
  nibble_events bl false 0 ++
  nibble_events bl false 12 ++ [Usleep 5000].

(** All the external calls of a successful [init]. *)
Definition init_events (bl : bool) : list Event :=
  [Printf InitBanner; I2cBegin; I2cSetSlaveAddress I2C_SLAVE_ADDRESS] ++
  init_command_events bl ++
  message_events true test_message ++
  [Printf InitOkayBanner].

(** The answer [bcm2835_i2c_begin] gives to [init] started in [w]. *)
Definition begin_answer (T : Transport) (w : World) : Z :=
  i2c_begin_result T (trace w ++ [Printf InitBanner]).

(** [keeps m]: [m] changes neither [backlight] nor [readWrite], however it
    ends. *)
Definition keeps {A} (m : M A) : Prop :=
  forall w,
    backlight (snd (m w)) = backlight w /\
    readWrite (snd (m w)) = readWrite w.

(** Among the external calls [es] made after [before], one I2C write was
    answered with a non-zero reason code. *)
Definition failed_write (T : Transport) (before es : list Event) : Prop :=
  exists es1 b es2,
    es = es1 ++ I2cWrite b :: es2 /\
    i2c_write_result T (before ++ es1) b <> 0.

(** A [void] operation surfaces transport failures when a run in which a
    write failed does not end as a plain return. *)
Definition surfaces_failure (T : Transport) (op : M unit) (w : World) : Prop :=
  forall es,
    trace (snd (op w)) = trace w ++ es ->
    failed_write T (trace w) es ->
    fst (op w) <> Returned tt.

(** ** Sessions and the wire *)





(** The three bytes of a latch of the frame [f]. *)
Definition latch_bytes (f : char) : list char := [f; Z.lor f ENABLE_BIT; f].



(** The time spent in [usleep], in microseconds. *)
Fixpoint slept (es : list Event) : Z :=
  match es with
  | [] => 0
  | Usleep us :: rest => us + slept rest
  | _ :: rest => slept rest
  end.

(** The characters that have a case of their own in [encodeChar]. *)
Definition in_table (c : char) : bool :=
  (32 <=? c) && (c <=? 125) && negb (c =? 92).

(** The bytes the library delivered through [receiveData]. *)
Definition payload (cbs : list HttpSend.Callback) : list char :=
  flat_map (fun cb => match cb with
                      | HttpSend.ReceiveData data => data
                      | _ => []
                      end) cbs.

Definition is_headers (cb : HttpSend.Callback) : bool :=
  match cb with
  | HttpSend.HeadersReady _ _ => true
  | _ => false
  end.



(** What the display controller takes from the bus: it samples the data
    lines D7-D4 when enable falls, that is at a byte with enable high
    followed by a byte with enable low. *)
Fixpoint sampled (bytes : list char) : list Z :=
  match bytes with
  | [] => []
  | hi :: rest =>
      match rest with
      | lo :: _ =>
          if Z.testbit hi 2 && negb (Z.testbit lo 2)
          then Z.shiftr hi 4 :: sampled rest
          else sampled rest
      | [] => []
      end
  end.

(** In 4-bit mode two successive nibbles, high one first, make a code. *)
Fixpoint joined (ns : list Z) : list char :=
  match ns with
  | h :: l :: ns' => 16 * h + l :: joined ns'
  | _ => []
  end.

(** The state after the library has invoked the callbacks [cbs]. *)
Definition deliver (cbs : list HttpSend.Callback) (s : HttpSend.State)
  : HttpSend.State :=
  fold_left (fun s cb => HttpSend.invoke cb s) cbs s.

Definition no_headers (cbs : list HttpSend.Callback) : bool :=
  forallb (fun cb => negb (is_headers cb)) cbs.

(** The text the format of [getDate] stands for: "MM/DD      HH:MM". *)
Definition date_text (t : Clock.tm) : list char :=
  Clock.two_digits (Clock.tm_mon t + 1) ++ [47] ++
  Clock.two_digits (Clock.tm_mday t) ++ [32; 32; 32; 32; 32; 32] ++
  Clock.two_digits (Clock.hour12 (Clock.tm_hour t)) ++ [58] ++
  Clock.two_digits (Clock.tm_min t).

(** * Lemmas *)

(** ** Worlds and traces *)

Lemma logs_nil w : logs [] w = w.
Proof. destruct w; unfold logs; simpl. now rewrite app_nil_r. Qed.

Lemma logs_logs es1 es2 w : logs es2 (logs es1 w) = logs (es1 ++ es2) w.
Proof. unfold logs; simpl. now rewrite app_assoc. Qed.

Lemma i2c_bytes_app es1 es2 :
  i2c_bytes (es1 ++ es2) = i2c_bytes es1 ++ i2c_bytes es2.
Proof.
  induction es1 as [|e es1 IH]; simpl; [reflexivity|].
  destruct e; simpl; now rewrite IH.
Qed.

(** ** Frames *)

Lemma nibble_cases n :
  0 <= n < 16 ->
  In n [0; 1; 2; 3; 4; 5; 6; 7; 8; 9; 10; 11; 12; 13; 14; 15].
Proof. intros H; simpl. lia. Qed.

Lemma frame_range bl rs n : 0 <= n < 16 -> 0 <= frame bl rs n < 256.
Proof. unfold frame; destruct bl, rs; lia. Qed.

(** What [write] computes before it calls [writeRaw] is the frame. *)
Lemma write_frame (bl rs : bool) (n : Z) :
  0 <= n < 16 ->
  (let byte := char_of_int (Z.shiftl n 4) in
   let byte := if bl then char_of_int (byte + BACKLIGHT_BIT) else byte in
   if rs then char_of_int (byte + REGSELECT_BIT) else byte) = frame bl rs n.
Proof.
  intros H; cbv zeta.
  unfold char_of_int, frame, BACKLIGHT_BIT, REGSELECT_BIT.
  rewrite Z.shiftl_mul_pow2 by lia. change (2 ^ 4) with 16.
  rewrite (Z.mod_small (n * 16)) by lia.
  destruct bl, rs;
    rewrite ?(Z.mod_small (n * 16 + 8)) by lia;
    rewrite ?(Z.mod_small (n * 16 + 8 + 1)) by lia;
    rewrite ?(Z.mod_small (n * 16 + 1)) by lia; lia.
Qed.

Lemma frame_bits (bl rs : bool) (n : Z) :
  0 <= n < 16 ->
  let f := frame bl rs n in
  Z.shiftr f 4 = n /\
  Z.testbit f 3 = bl /\ Z.testbit f 2 = false /\
  Z.testbit f 1 = false /\ Z.testbit f 0 = rs.
Proof.
  intros H. apply nibble_cases in H. simpl in H.
  repeat (destruct H as [H|H]; [subst n; destruct bl, rs; vm_compute; tauto|]).
  contradiction.
Qed.

Lemma enable_bit_only f i :
  i <> 2 -> Z.testbit (Z.lor f ENABLE_BIT) i = Z.testbit f i.
Proof.
  intros Hi. rewrite Z.lor_spec. change ENABLE_BIT with (2 ^ 2).
  rewrite (Z.pow2_bits_false 2 i) by lia. apply orb_false_r.
Qed.

Lemma enable_bit_high f : Z.testbit (Z.lor f ENABLE_BIT) 2 = true.
Proof. rewrite Z.lor_spec. apply orb_true_r. Qed.

Lemma enable_range f : 0 <= f < 256 -> 0 <= Z.lor f ENABLE_BIT < 256.
Proof.
  intros [H0 H1]. split; [apply Z.lor_nonneg; unfold ENABLE_BIT; lia|].
  destruct (Z.eq_dec f 0) as [->|Hf]; [vm_compute; reflexivity|].
  change 256 with (2 ^ 8). apply Z.log2_lt_pow2.
  - assert (0 <= Z.lor f ENABLE_BIT) by (apply Z.lor_nonneg; unfold ENABLE_BIT; lia).
    assert (Z.lor f ENABLE_BIT <> 0).
    { intros E. apply Z.lor_eq_0_iff in E. unfold ENABLE_BIT in E. lia. }
    lia.
  - rewrite Z.log2_lor by (unfold ENABLE_BIT; lia).
    assert (Z.log2 f < 8) by (apply Z.log2_lt_pow2; lia).
    change (Z.log2 ENABLE_BIT) with 2. lia.
Qed.

(** ** The nibble write *)

(** [write] always returns, whatever the transport answers, after the six
    external calls of the latch. *)
Lemma write_run T n w :
  0 <= n < 16 ->
  write T n w =
  (Returned tt, logs (nibble_events (backlight w) (regSelect w) n) w).
Proof.
  intros H. unfold nibble_events.
  assert (Hf := frame_range (backlight w) (regSelect w) n H).
  rewrite <- (write_frame _ _ n H) in *. cbv zeta in *.
  unfold write. generalize dependent (char_of_int (Z.shiftl n 4)). intros b Hf.
  cbv [bind writeRaw bcm2835_i2c_write usleep call get_backlight
       get_regSelect log logs pulse backlight regSelect readWrite trace].
  destruct w as [bl rs rw tr].
  set (f := if rs then _ else _) in *.
  unfold char_of_int at 1. rewrite Z.mod_small by now apply enable_range.
  repeat rewrite <- app_assoc. reflexivity.
Qed.

(** Without any assumption on the argument: [write] returns normally and
    touches nothing but the trace, to which it adds three [I2cWrite] and
    three [Usleep]. *)
Lemma write_any T n w :
  exists f,
    write T n w =
    (Returned tt,
     logs [I2cWrite f; Usleep 1500;
           I2cWrite (char_of_int (Z.lor f ENABLE_BIT)); Usleep 1500;
           I2cWrite f; Usleep 1500] w).
Proof.
  unfold write. cbv zeta. generalize (char_of_int (Z.shiftl n 4)). intros b.
  cbv [bind writeRaw bcm2835_i2c_write usleep call get_backlight
       get_regSelect log logs backlight regSelect readWrite trace].
  destruct w as [bl rs rw tr].
  eexists. repeat rewrite <- app_assoc. reflexivity.
Qed.

(** ** The character table *)

Lemma zrange_check (P : Z -> bool) lo n :
  forallb P (zrange lo n) = true ->
  forall c, lo <= c < lo + Z.of_nat n -> P c = true.
Proof.
  intros H c Hc. rewrite forallb_forall in H. apply H.
  unfold zrange. apply in_map_iff. exists (Z.to_nat (c - lo)). split.
  - lia.
  - apply in_seq. lia.
Qed.

Lemma encodeChar_non_ascii_label : encodeChar non_ascii_label = 0x5C.
Proof. reflexivity. Qed.

Lemma non_ascii_label_not_char : ~ (-128 <= non_ascii_label < 256).
Proof. unfold non_ascii_label. lia. Qed.

(** Inside the table: every code from ' ' to '}' but 0x5C. *)
Lemma encodeChar_table c :
  32 <= c <= 125 -> c <> 92 -> encodeChar c = c.
Proof.
  intros Hc Hn.
  assert (Hall : forallb (fun c => (c =? 92) || (encodeChar c =? c))
                         (zrange 32 94) = true) by (vm_compute; reflexivity).
  assert (H := zrange_check _ _ _ Hall c ltac:(lia)).
  cbv beta in H. apply orb_true_iff in H. destruct H as [H|H]; lia.
Qed.

(** Outside the table, whichever signedness [char] has. *)
Lemma encodeChar_default c :
  -128 <= c < 256 -> c < 32 \/ 125 < c \/ c = 92 -> encodeChar c = 0x3F.
Proof.
  intros Hc Ho.
  assert (Hall : forallb (fun c => ((32 <=? c) && (c <=? 125) && negb (c =? 92))
                                   || (encodeChar c =? 0x3F))
                         (zrange (-128) 384) = true) by (vm_compute; reflexivity).
  assert (H := zrange_check _ _ _ Hall c ltac:(lia)).
  cbv beta in H. apply orb_true_iff in H. destruct H as [H|H]; [|lia].
  apply andb_true_iff in H. destruct H as [H H2].
  apply andb_true_iff in H. destruct H as [H0 H1].
  apply negb_true_iff in H2. lia.
Qed.

(** Whatever it is given, [encodeChar] answers with a code of the table. *)
Lemma encodeChar_range c : 32 <= encodeChar c <= 125.
Proof.
  unfold encodeChar.
  repeat match goal with
         | |- context [match ?x with _ => _ end] => is_var x; destruct x
         end; lia.
Qed.

(** ** Sequencing *)

Lemma bind_returned {A B} (m : M A) (k : A -> M B) w a w' :
  m w = (Returned a, w') -> bind m k w = k a w'.
Proof. intros H. unfold bind. now rewrite H. Qed.

Lemma set_regSelect_run b w :
  set_regSelect b w = (Returned tt, with_regSelect b w).
Proof. reflexivity. Qed.

Lemma set_backlight_run b w :
  set_backlight b w = (Returned tt, with_backlight b w).
Proof. reflexivity. Qed.

Lemma call_run e w : call e w = (Returned tt, logs [e] w).
Proof. reflexivity. Qed.

(** [run L] consumes the first statement of a sequence with the equation
    [L] for its run. *)
Ltac run L := erewrite bind_returned by (apply L; try lia).

(** ** Splitting a code into nibbles *)

Lemma high_nibble_range code : 0 <= code < 256 -> 0 <= high_nibble code < 16.
Proof.
  intros H. unfold high_nibble. rewrite Z.shiftr_div_pow2 by lia.
  change (2 ^ 4) with 16. split.
  - apply Z.div_pos; lia.
  - apply Z.div_lt_upper_bound; lia.
Qed.

Lemma low_nibble_range code : 0 <= low_nibble code < 16.
Proof.
  unfold low_nibble. change 15 with (Z.ones 4). rewrite Z.land_ones by lia.
  change (2 ^ 4) with 16. apply Z.mod_pos_bound. lia.
Qed.

(** The two messages [m1] and [m2] of [writeChar]. *)
Lemma split_high code :
  0 <= code < 256 ->
  char_of_int (Z.shiftr (Z.land code 0xF0) 4) = high_nibble code.
Proof.
  intros H.
  assert (Hall : forallb (fun c => char_of_int (Z.shiftr (Z.land c 0xF0) 4)
                                   =? high_nibble c) (zrange 0 256) = true)
    by (vm_compute; reflexivity).
  assert (E := zrange_check _ _ _ Hall code ltac:(lia)). cbv beta in E. lia.
Qed.

Lemma split_low code : char_of_int (Z.land code 0x0F) = low_nibble code.
Proof.
  unfold char_of_int. fold (low_nibble code).
  assert (H := low_nibble_range code). apply Z.mod_small. lia.
Qed.

Lemma nibbles_join code :
  0 <= code < 256 -> 16 * high_nibble code + low_nibble code = code.
Proof.
  intros H. unfold high_nibble, low_nibble.
  rewrite Z.shiftr_div_pow2 by lia. change 15 with (Z.ones 4).
  rewrite Z.land_ones by lia. change (2 ^ 4) with 16.
  symmetry. apply Z.div_mod. lia.
Qed.

(** ** Characters and messages *)

Lemma writeChar_code_run T code w :
  0 <= code < 256 ->
  writeChar_code T code w =
  (Returned tt, with_regSelect true (logs (char_events (backlight w) code) w)).
Proof.
  intros H. unfold writeChar_code. cbv zeta.
  rewrite (split_high code H), split_low.
  assert (Hh := high_nibble_range code H). assert (Hl := low_nibble_range code).
  run set_regSelect_run. run write_run. rewrite write_run by lia.
  unfold char_events. simpl backlight. simpl regSelect.
  now rewrite logs_logs.
Qed.

Lemma writeChar_run T c w :
  writeChar T c w =
  (Returned tt,
   with_regSelect true (logs (char_events (backlight w) (encodeChar c)) w)).
Proof.
  unfold writeChar. cbv zeta. apply writeChar_code_run.
  assert (H := encodeChar_range c). lia.
Qed.

Lemma message_nibbles_length s :
  List.length (message_nibbles s) = (2 * List.length s)%nat.
Proof. induction s as [|c s IH]; simpl in *; lia. Qed.

Lemma message_nibbles_range s :
  Forall (fun n => 0 <= n < 16) (message_nibbles s).
Proof.
  induction s as [|c s IH]; simpl; [constructor|].
  assert (H := encodeChar_range c).
  repeat constructor; try apply high_nibble_range; try apply low_nibble_range;
    try lia. exact IH.
Qed.

Lemma writeMessage_run T (s rest : list char) :
  Forall (fun c => c <> 0) s ->
  forall w,
    writeMessage T (s ++ 0 :: rest) w =
    (Returned tt,
     after_message s (logs (message_events (backlight w) s) w)).
Proof.
  induction 1 as [|c s Hc Hs IH]; intros w.
  - simpl. unfold ret. now rewrite logs_nil.
  - cbn [app writeMessage]. apply Z.eqb_neq in Hc. rewrite Hc.
    run writeChar_run. rewrite IH.
    unfold message_events, message_nibbles. cbn [flat_map nibbles app].
    unfold char_events. cbn [after_message backlight with_regSelect logs].
    f_equal. destruct s; unfold logs, with_regSelect; cbn [after_message
      backlight regSelect readWrite trace];
      now rewrite <- !app_assoc.
Qed.

Lemma writes_run T ns :
  Forall (fun n => 0 <= n < 16) ns ->
  forall w,
    writes T ns w =
    (Returned tt,
     logs (flat_map (nibble_events (backlight w) (regSelect w)) ns) w).
Proof.
  induction 1 as [|n ns Hn Hns IH]; intros w.
  - simpl. unfold ret. now rewrite logs_nil.
  - cbn [writes flat_map]. run write_run. rewrite IH.
    now rewrite logs_logs.
Qed.

(** ** Commands *)

Lemma clear_run T w :
  clear T w =
  (Returned tt,
   with_regSelect false
     (logs (flat_map (nibble_events (backlight w) false) (nibbles CLEAR_DISPLAY)) w)).
Proof.
  unfold clear. run set_regSelect_run. run write_run. rewrite write_run by lia.
  cbn [flat_map nibbles backlight regSelect with_regSelect logs].
  now rewrite logs_logs, app_nil_r.
Qed.

Lemma home_run T w :
  home T w =
  (Returned tt,
   with_regSelect false
     (logs (flat_map (nibble_events (backlight w) false) (nibbles RETURN_HOME)) w)).
Proof.
  unfold home. run set_regSelect_run. run write_run. rewrite write_run by lia.
  cbn [flat_map nibbles backlight regSelect with_regSelect logs].
  now rewrite logs_logs, app_nil_r.
Qed.

(** ** Initialization *)

Lemma literal_chars s : literal s = chars s ++ [0].
Proof. reflexivity. Qed.

Lemma test_message_no_null : Forall (fun c => c <> 0) test_message.
Proof. unfold test_message. cbv. repeat constructor; discriminate. Qed.

(** Brings a world built by [logs], [with_regSelect] and [with_backlight]
    to an explicit record. *)
Ltac simpl_world :=
  repeat progress
    (try unfold logs; try unfold with_regSelect; try unfold with_backlight;
     cbn [after_message test_message chars list_ascii_of_string map
          backlight regSelect readWrite trace]).

Lemma begin_run T w :
  bcm2835_i2c_begin T w =
  (Returned (i2c_begin_result T (trace w)), logs [I2cBegin] w).
Proof. reflexivity. Qed.

Lemma init_fail_run T w :
  begin_answer T w = 0 ->
  init T w =
  (Thrown "Failed to initialize I2C",
   logs [Printf InitBanner; I2cBegin; Printf InitFailBanner] w).
Proof.
  unfold begin_answer. intros H. unfold init, printf.
  run call_run. run begin_run. cbn [trace logs]. rewrite H.
  cbn [Z.eqb]. run call_run. unfold throw. now rewrite !logs_logs.
Qed.

Lemma init_run T w :
  begin_answer T w <> 0 ->
  init T w =
  (Returned tt,
   with_backlight true
     (with_regSelect true (logs (init_events (backlight w)) w))).
Proof.
  unfold begin_answer. intros H. unfold init, printf, usleep,
    bcm2835_i2c_setSlaveAddress.
  run call_run. run begin_run. cbn [trace logs].
  apply Z.eqb_neq in H. rewrite H.
  run call_run. run set_regSelect_run. simpl_world.
  do 10 (run write_run; simpl_world; try (run call_run; simpl_world)).
  run set_backlight_run. simpl_world.
  rewrite literal_chars. fold test_message.
  run (writeMessage_run T test_message [] test_message_no_null).
  rewrite call_run. f_equal.
  unfold init_events, init_command_events. simpl_world.
  f_equal. repeat rewrite <- app_assoc. reflexivity.
Qed.

(** ** Register select on the wire *)

Lemma nibble_events_bytes bl rs n :
  i2c_bytes (nibble_events bl rs n) =
  [frame bl rs n; Z.lor (frame bl rs n) ENABLE_BIT; frame bl rs n].
Proof. reflexivity. Qed.

Lemma nibble_events_rs bl rs n :
  0 <= n < 16 ->
  Forall (fun b => Z.testbit b 0 = rs) (i2c_bytes (nibble_events bl rs n)).
Proof.
  intros H. rewrite nibble_events_bytes.
  destruct (frame_bits bl rs n H) as (_ & _ & _ & _ & H0).
  repeat constructor; try assumption.
  rewrite enable_bit_only by lia. assumption.
Qed.

Lemma nibbles_events_rs bl rs ns :
  Forall (fun n => 0 <= n < 16) ns ->
  Forall (fun b => Z.testbit b 0 = rs)
         (i2c_bytes (flat_map (nibble_events bl rs) ns)).
Proof.
  induction 1 as [|n ns Hn Hns IH]; [constructor|].
  cbn [flat_map]. rewrite i2c_bytes_app. apply Forall_app. split.
  - now apply nibble_events_rs.
  - exact IH.
Qed.

(** ** What an operation leaves alone *)

Lemma keeps_ret {A} (a : A) : keeps (ret a).
Proof. intros w; split; reflexivity. Qed.

Lemma keeps_bind {A B} (m : M A) (k : A -> M B) :
  keeps m -> (forall a, keeps (k a)) -> keeps (bind m k).
Proof.
  intros Hm Hk w. unfold bind. destruct (Hm w) as [H1 H2].
  destruct (m w) as [[a|s|] w']; cbn [snd] in *.
  - destruct (Hk a w') as [H3 H4]. split; congruence.
  - split; assumption.
  - split; assumption.
Qed.

Lemma keeps_call e : keeps (call e).
Proof. intros w; split; reflexivity. Qed.

Lemma keeps_set_regSelect b : keeps (set_regSelect b).
Proof. intros w; split; reflexivity. Qed.

Lemma keeps_get_backlight : keeps get_backlight.
Proof. intros w; split; reflexivity. Qed.

Lemma keeps_get_regSelect : keeps get_regSelect.
Proof. intros w; split; reflexivity. Qed.

Lemma keeps_writeRaw T b : keeps (writeRaw T b).
Proof. intros w; split; reflexivity. Qed.

Create HintDb keeps_db.
#[local] Hint Resolve keeps_ret keeps_call keeps_set_regSelect
  keeps_get_backlight keeps_get_regSelect keeps_writeRaw : keeps_db.

Ltac keeps_seq :=
  repeat (apply keeps_bind; [|intros ?]); auto with keeps_db.

Lemma keeps_write T n : keeps (write T n).
Proof. unfold write, usleep. cbv zeta. keeps_seq. Qed.

#[local] Hint Resolve keeps_write : keeps_db.

Lemma keeps_writeChar T c : keeps (writeChar T c).
Proof. unfold writeChar, writeChar_code. cbv zeta. keeps_seq. Qed.

#[local] Hint Resolve keeps_writeChar : keeps_db.

Lemma keeps_writeMessage T message : keeps (writeMessage T message).
Proof.
  induction message as [|c rest IH]; cbn [writeMessage].
  - intros w; split; reflexivity.
  - destruct (c =? 0); keeps_seq.
Qed.

Lemma keeps_clear T : keeps (clear T).
Proof. unfold clear. keeps_seq. Qed.

Lemma keeps_home T : keeps (home T).
Proof. unfold home. keeps_seq. Qed.

Lemma keeps_goTo pos : keeps (goTo pos).
Proof. unfold goTo. keeps_seq. Qed.

Lemma keeps_destroy : keeps destroy.
Proof. unfold destroy, printf, bcm2835_i2c_end. keeps_seq. Qed.

(** ** Transport failures *)

Lemma write_transport_independent T T' n w : write T n w = write T' n w.
Proof.
  unfold write. cbv zeta. generalize (char_of_int (Z.shiftl n 4)). intros b.
  cbv [bind writeRaw bcm2835_i2c_write usleep call get_backlight
       get_regSelect log]. reflexivity.
Qed.

Lemma writeRaw_run T b w :
  writeRaw T b w =
  (Returned (i2c_write_result T (trace w) b), logs [I2cWrite b] w).
Proof. reflexivity. Qed.

(** * Properties of the driver *)

(** C1, as stated, does not hold: on a transport that refuses every write,
    the nibble write [write(0b0001)] of a freshly started program sees a
    failed write and still ends as a plain return, so the failure is not
    surfaced. *)
Lemma write_swallows_failure :
  ~ surfaces_failure nack_transport (write nack_transport 1) boot.
Proof.
  intros H.
  apply (H (nibble_events false false 1)).
  - reflexivity.
  - exists [], (frame false false 1), (tl (nibble_events false false 1)).
    split; [reflexivity|]. cbn. discriminate.
  - reflexivity.
Qed.

(** C1, amended: [writeRaw] hands the status of the single-byte I2C write
    back to [write], and [write] drops it.  Whatever the transport
    answers, a nibble write returns normally and behaves exactly as on any
    other transport, issuing three I2C writes and no more (no retry); the
    same independence holds for [writeChar], [clear] and [home]. *)
Theorem write_drops_status (T T' : Transport) (n : char) (c : char) (w : World) :
  (forall b, fst (writeRaw T b w) = Returned (i2c_write_result T (trace w) b)) /\
  fst (write T n w) = Returned tt /\
  write T n w = write T' n w /\
  (exists es, trace (snd (write T n w)) = trace w ++ es /\
              List.length (i2c_bytes es) = 3%nat) /\
  writeChar T c w = writeChar T' c w /\
  clear T w = clear T' w /\
  home T w = home T' w.
Proof.
  split; [reflexivity|].
  destruct (write_any T n w) as [f Hf].
  split; [now rewrite Hf|].
  split; [apply write_transport_independent|].
  split; [rewrite Hf; eexists; split; reflexivity|].
  rewrite !writeChar_run, !clear_run, !home_run. repeat split.
Qed.

(** C2, as stated, does not hold: the backslash (0x5C) lies between ' '
    and '}' and has no case in the switch, so it is encoded as '?'. *)
Lemma encodeChar_backslash :
  32 <= 92 <= 125 /\ encodeChar 92 = 0x3F /\ encodeChar 92 <> 92.
Proof. repeat split; try lia. discriminate. Qed.

(** C2, amended: [encodeChar] is a function of its argument alone, defined
    on every character; for every character from ' ' through '}' other
    than the backslash (0x5C) the glyph code is the ASCII code itself, and
    for the backslash and for every character outside that range it is
    the code of '?' (0b00111111). *)
Theorem encodeChar_spec (c : char) :
  -128 <= c < 256 ->
  (32 <= c <= 125 -> c <> 92 -> encodeChar c = c) /\
  (c < 32 \/ 125 < c \/ c = 92 -> encodeChar c = 0x3F).
Proof.
  intros Hc. split.
  - apply encodeChar_table.
  - now apply encodeChar_default.
Qed.

Lemma encodeChar_spec_witness :
  encodeChar 72 = 72 /\ encodeChar 200 = 0x3F.
Proof.
  split.
  - apply (encodeChar_spec 72); lia.
  - apply (encodeChar_spec 200); lia.
Defined.

(** C3: for every 4-bit nibble, [write] hands exactly three bytes to the
    transport: the frame with enable low, the same frame with enable high,
    the frame with enable low again.  The frame has the nibble in bits
    7-4, bit 3 set iff [backlight], bit 0 set iff [regSelect] (character
    register), bit 1 clear, and the middle byte differs from it in bit 2
    only. *)
Theorem write_latch (T : Transport) (n : Z) (w : World) :
  0 <= n < 16 ->
  let f := frame (backlight w) (regSelect w) n in
  write T n w =
    (Returned tt,
     logs [I2cWrite f; Usleep 1500;
           I2cWrite (Z.lor f ENABLE_BIT); Usleep 1500;
           I2cWrite f; Usleep 1500] w) /\
  (exists es, trace (snd (write T n w)) = trace w ++ es /\
              i2c_bytes es = [f; Z.lor f ENABLE_BIT; f]) /\
  0 <= f < 256 /\
  Z.shiftr f 4 = n /\
  Z.testbit f 3 = backlight w /\
  Z.testbit f 2 = false /\
  Z.testbit f 1 = false /\
  Z.testbit f 0 = regSelect w /\
  Z.testbit (Z.lor f ENABLE_BIT) 2 = true /\
  (forall i, i <> 2 -> Z.testbit (Z.lor f ENABLE_BIT) i = Z.testbit f i).
Proof.
  intros H f.
  destruct (frame_bits (backlight w) (regSelect w) n H)
    as (H4 & H3 & H2 & H1 & H0).
  split; [now apply write_run|].
  split; [rewrite (write_run T n w H); eexists; split; reflexivity|].
  split; [now apply frame_range|].
  repeat split; try assumption.
  - apply enable_bit_high.
  - intros i Hi. now apply enable_bit_only.
Qed.

Lemma write_latch_witness :
  i2c_bytes (trace (snd (write good_transport 5 boot))) = [80; 84; 80].
Proof.
  destruct (write_latch good_transport 5 boot ltac:(lia)) as [H _].
  rewrite H. reflexivity.
Defined.

(** C4 fails on the code: [goTo] has an empty body.  For every position
    it returns with the world as it found it, so no byte, and no
    address-set command, reaches the transport. *)
Theorem goTo_does_nothing (pos : Z) (w : World) :
  goTo pos w = (Returned tt, w) /\
  i2c_bytes (trace (snd (goTo pos w))) = i2c_bytes (trace w).
Proof. split; reflexivity. Qed.

(** C5: [clear] selects the command register and writes the clear-display
    code 0b00000001 as the nibbles 0b0000 then 0b0001; every byte it sends
    has the register-select bit clear, and the call is not a no-op. *)
Theorem clear_sends_clear_display (T : Transport) (w : World) :
  let bl := backlight w in
  clear T w =
    (Returned tt,
     {| backlight := bl; regSelect := false; readWrite := readWrite w;
        trace := trace w ++ nibble_events bl false 0 ++ nibble_events bl false 1 |}) /\
  clear T w = writes T [0; 1] (with_regSelect false w) /\
  nibbles 1 = [0; 1] /\
  Forall (fun b => Z.testbit b 0 = false)
         (i2c_bytes (nibble_events bl false 0 ++ nibble_events bl false 1)) /\
  clear T w <> (Returned tt, w).
Proof.
  intros bl. assert (E := clear_run T w).
  cbn [flat_map nibbles CLEAR_DISPLAY] in E. rewrite app_nil_r in E.
  change (high_nibble CLEAR_DISPLAY) with 0 in E.
  change (low_nibble CLEAR_DISPLAY) with 1 in E.
  split; [exact E|].
  split.
  { rewrite E, writes_run by (repeat constructor; lia).
    cbn [flat_map backlight regSelect with_regSelect]. now rewrite app_nil_r. }
  split; [reflexivity|].
  split.
  { apply (nibbles_events_rs bl false [0; 1]). repeat constructor; lia. }
  rewrite E. intros C. injection C as C.
  apply (f_equal trace) in C. cbn [trace with_regSelect logs] in C.
  apply (f_equal (@List.length Event)) in C.
  rewrite length_app in C. cbn in C. lia.
Qed.

(** C6: when [bcm2835_i2c_begin] succeeds, [init] returns after writing,
    in command mode and in this order, the nibbles of: set 4-bit mode,
    2-line 5x8 mode, display off (cursor off, blink off), clear display
    and home, entry mode (increment right, no shift), display on.  The
    display-on code comes last; its low nibble 0b1100 occurs nowhere
    before.  The test message follows in character mode. *)
Theorem init_command_order (T : Transport) (w : World) :
  begin_answer T w <> 0 ->
  let bl := backlight w in
  exists es,
    fst (init T w) = Returned tt /\
    trace (snd (init T w)) = trace w ++ es /\
    es = [Printf InitBanner; I2cBegin; I2cSetSlaveAddress 0x27] ++
         init_command_events bl ++
         message_events true test_message ++ [Printf InitOkayBanner] /\
    i2c_bytes es =
      i2c_bytes (flat_map (nibble_events bl false) init_nibbles) ++
      i2c_bytes (message_events true test_message) /\
    init_nibbles = [2; 8; 0; 8; 0; 1; 0; 6; 0; 12] /\
    init_nibbles =
      ([SET_4BIT_MODE; SET_2LINE_5X8] ++ nibbles DISPLAY_OFF ++
       nibbles CLEAR_DISPLAY ++ nibbles ENTRY_MODE_RIGHT) ++
      nibbles DISPLAY_ON /\
    ~ In (low_nibble DISPLAY_ON)
         ([SET_4BIT_MODE; SET_2LINE_5X8] ++ nibbles DISPLAY_OFF ++
          nibbles CLEAR_DISPLAY ++ nibbles ENTRY_MODE_RIGHT).
Proof.
  intros H bl. rewrite (init_run T w H). eexists.
  split; [reflexivity|].
  split; [reflexivity|].
  split; [reflexivity|].
  split.
  { unfold init_command_events, init_nibbles.
    cbn [flat_map nibbles app].
    repeat rewrite i2c_bytes_app. cbn [i2c_bytes app].
    repeat rewrite <- app_assoc. reflexivity. }
  split; [reflexivity|].
  split; [reflexivity|].
  cbv. intuition discriminate.
Qed.

Lemma init_command_order_witness :
  fst (init good_transport boot) = Returned tt.
Proof.
  assert (H : begin_answer good_transport boot <> 0) by (cbv; discriminate).
  destruct (init_command_order good_transport boot H) as (es & H1 & _).
  exact H1.
Defined.

(** C7: for a null-terminated string [s] (no null inside [s], a null after
    it), [writeMessage] performs the nibble writes of [message_nibbles s],
    which are [2 * length s] in number -- none for the empty string --
    namely high and low nibble of the code of each character, in order;
    [regSelect] is [true] after the first character is reached, and every
    byte sent has the register-select bit set. *)
Theorem writeMessage_nibble_writes
    (T : Transport) (s rest : list char) (w : World) :
  Forall (fun c => c <> 0) s ->
  let ns := message_nibbles s in
  List.length ns = (2 * List.length s)%nat /\
  ns = flat_map (fun c => [high_nibble (encodeChar c);
                           low_nibble (encodeChar c)]) s /\
  writeMessage T (s ++ 0 :: rest) w = writes T ns (after_message s w) /\
  writeMessage T (s ++ 0 :: rest) w =
    (Returned tt,
     after_message s
       (logs (flat_map (nibble_events (backlight w) true) ns) w)) /\
  Forall (fun b => Z.testbit b 0 = true)
         (i2c_bytes (flat_map (nibble_events (backlight w) true) ns)) /\
  (s = [] -> writeMessage T (s ++ 0 :: rest) w = (Returned tt, w)).
Proof.
  intros Hs ns.
  assert (E := writeMessage_run T s rest Hs w). fold ns in E.
  split; [apply message_nibbles_length|].
  split; [reflexivity|].
  split.
  { rewrite E, writes_run by apply message_nibbles_range.
    destruct s; reflexivity. }
  split; [exact E|].
  split; [apply nibbles_events_rs, message_nibbles_range|].
  intros ->. reflexivity.
Qed.

Lemma writeMessage_nibble_writes_witness :
  List.length (message_nibbles (chars "HI")) = 4%nat /\
  writeMessage good_transport (literal "HI") boot =
  writes good_transport [4; 8; 4; 9] (with_regSelect true boot).
Proof.
  assert (H : Forall (fun c => c <> 0) (chars "HI"))
    by (repeat constructor; discriminate).
  destruct (writeMessage_nibble_writes good_transport (chars "HI") [] boot H)
    as (H1 & _ & H2 & _).
  split; [exact H1 | exact H2].
Defined.

(** C8: for every 8-bit code, the part of [writeChar] that follows the
    encoding makes two nibble writes: bits 7-4 of the code first, bits 3-0
    second. *)
Theorem writeChar_code_high_low (T : Transport) (code : char) (w : World) :
  0 <= code < 256 ->
  writeChar_code T code w =
    writes T [high_nibble code; low_nibble code] (with_regSelect true w) /\
  writeChar_code T code w =
    (Returned tt,
     with_regSelect true
       (logs (nibble_events (backlight w) true (high_nibble code) ++
              nibble_events (backlight w) true (low_nibble code)) w)) /\
  (forall i, 0 <= i < 4 ->
     Z.testbit (high_nibble code) i = Z.testbit code (i + 4)) /\
  (forall i, 0 <= i < 4 ->
     Z.testbit (low_nibble code) i = Z.testbit code i) /\
  0 <= high_nibble code < 16 /\
  0 <= low_nibble code < 16 /\
  16 * high_nibble code + low_nibble code = code /\
  (forall c, writeChar T c w = writeChar_code T (encodeChar c) w).
Proof.
  intros H.
  assert (Hh := high_nibble_range code H). assert (Hl := low_nibble_range code).
  assert (E := writeChar_code_run T code w H). unfold char_events in E.
  split.
  { rewrite E, writes_run by (repeat constructor; lia).
    cbn [flat_map backlight regSelect with_regSelect]. now rewrite app_nil_r. }
  split; [exact E|].
  split.
  { intros i Hi. unfold high_nibble. apply Z.shiftr_spec. lia. }
  split.
  { intros i Hi. unfold low_nibble. rewrite Z.land_spec.
    change 15 with (Z.ones 4). rewrite Z.ones_spec_low by lia.
    apply andb_true_r. }
  repeat split; try lia. now apply nibbles_join.
Qed.

Lemma writeChar_code_high_low_witness :
  writeChar_code good_transport 0x48 boot =
  writes good_transport [4; 8] (with_regSelect true boot).
Proof.
  destruct (writeChar_code_high_low good_transport 0x48 boot ltac:(lia))
    as [H _].
  exact H.
Defined.

(** C9: if [bcm2835_i2c_begin] fails, [init] throws
    [std::runtime_error("Failed to initialize I2C")] having written
    nothing to the display and with [backlight] and [regSelect] as they
    were; if it succeeds, [init] does not throw. *)
Theorem init_begin_failure (T : Transport) (w : World) :
  (begin_answer T w = 0 ->
     init T w =
       (Thrown "Failed to initialize I2C",
        logs [Printf InitBanner; I2cBegin; Printf InitFailBanner] w) /\
     i2c_bytes (trace (snd (init T w))) = i2c_bytes (trace w) /\
     backlight (snd (init T w)) = backlight w /\
     regSelect (snd (init T w)) = regSelect w) /\
  (begin_answer T w <> 0 -> fst (init T w) = Returned tt).
Proof.
  split.
  - intros H. rewrite (init_fail_run T w H).
    split; [reflexivity|].
    split; [|split; reflexivity].
    cbn [snd logs trace]. rewrite i2c_bytes_app. cbn. apply app_nil_r.
  - intros H. now rewrite (init_run T w H).
Qed.

Lemma init_begin_failure_witness :
  fst (init dead_transport boot) = Thrown "Failed to initialize I2C" /\
  fst (init good_transport boot) = Returned tt.
Proof.
  split.
  - destruct (proj1 (init_begin_failure dead_transport boot) eq_refl)
      as [H _].
    rewrite H. reflexivity.
  - apply (proj2 (init_begin_failure good_transport boot)).
    cbv. discriminate.
Defined.

(** C10: [writeChar], [writeMessage], [clear] and [home] leave [backlight]
    and [readWrite] as they found them, for every argument and however
    the call ends; so do [write], [writeRaw], [goTo] and [destroy].  [init]
    is the operation that changes [backlight]: started with the backlight
    off on a bus that begins, it leaves it on. *)
Theorem control_bits_frame (T : Transport) :
  (forall c, keeps (writeChar T c)) /\
  (forall message, keeps (writeMessage T message)) /\
  keeps (clear T) /\
  keeps (home T) /\
  (forall n, keeps (write T n)) /\
  (forall b, keeps (writeRaw T b)) /\
  (forall pos, keeps (goTo pos)) /\
  keeps destroy /\
  (forall w, readWrite (snd (init T w)) = readWrite w) /\
  backlight boot = false /\
  backlight (snd (init good_transport boot)) = true.
Proof.
  split; [apply keeps_writeChar|].
  split; [apply keeps_writeMessage|].
  split; [apply keeps_clear|].
  split; [apply keeps_home|].
  split; [apply keeps_write|].
  split; [apply keeps_writeRaw|].
  split; [apply keeps_goTo|].
  split; [apply keeps_destroy|].
  split.
  { intros w. destruct (Z.eq_dec (begin_answer T w) 0) as [H|H].
    - now rewrite (init_fail_run T w H).
    - now rewrite (init_run T w H). }
  split; [reflexivity|].
  rewrite init_run by (cbv; discriminate). reflexivity.
Qed.

(** * Further properties *)

(** ** The argument of the nibble write *)

Lemma shift_low_bits n :
  char_of_int (Z.shiftl n 4) = char_of_int (Z.shiftl (n mod 16) 4).
Proof.
  unfold char_of_int. rewrite !Z.shiftl_mul_pow2 by lia.
  change (2 ^ 4) with 16. change 256 with (16 * 16).
  rewrite !Z.mul_mod_distr_r by lia.
  now rewrite Z.mod_mod by lia.
Qed.

Lemma write_low_bits T n w : write T n w = write T (n mod 16) w.
Proof. unfold write. cbv zeta. now rewrite shift_low_bits. Qed.

Lemma write_run_any T n w :
  write T n w =
  (Returned tt, logs (nibble_events (backlight w) (regSelect w) (n mod 16)) w).
Proof.
  rewrite write_low_bits. apply write_run. apply Z.mod_pos_bound. lia.
Qed.

(** ** Invariants of sequences of calls *)

Section Discipline.

Variable I : World -> Prop.
Variable Q : list Event -> Prop.

Hypothesis Q_nil : Q [].
Hypothesis Q_app : forall a b, Q a -> Q b -> Q (a ++ b).
Hypothesis Q_quiet :
  forall e, match e with I2cWrite _ => False | _ => True end -> Q [e].
Hypothesis Q_nibble :
  forall w n, I w -> 0 <= n < 16 ->
    Q (nibble_events (backlight w) (regSelect w) n).
Hypothesis I_logs : forall es w, I w -> I (logs es w).
Hypothesis I_regSelect : forall b w, I w -> I (with_regSelect b w).
Hypothesis I_on : forall w, I w -> I (with_backlight true w).



















End Discipline.

(** ** Instances *)















(** ** Properties *)

(** X1: [write] looks at the low four bits of its argument only: for
    every argument it makes the nibble write of [byte mod 16], so the four
    higher-order bits are ignored. *)
Theorem write_ignores_high_bits (T : Transport) (byte : char) (w : World) :
  write T byte w = write T (byte mod 16) w /\
  write T byte w =
    (Returned tt,
     logs (nibble_events (backlight w) (regSelect w) (byte mod 16)) w) /\
  Z.shiftr (frame (backlight w) (regSelect w) (byte mod 16)) 4 = byte mod 16.
Proof.
  split; [apply write_low_bits|].
  split; [apply write_run_any|].
  apply frame_bits. apply Z.mod_pos_bound. lia.
Qed.

(** X2: [home] selects the command register and sends the return-home
    code 0b00000010 as the nibbles 0b0000 then 0b0010; the six bytes it
    sends have the register-select bit clear, and [regSelect] is [false]
    afterwards. *)
Theorem home_sends_return_home (T : Transport) (w : World) :
  let bl := backlight w in
  home T w =
    (Returned tt,
     {| backlight := bl; regSelect := false; readWrite := readWrite w;
        trace := trace w ++ nibble_events bl false 0 ++ nibble_events bl false 2 |}) /\
  home T w = writes T (nibbles 2) (with_regSelect false w) /\
  i2c_bytes (nibble_events bl false 0 ++ nibble_events bl false 2) =
    (if bl then [8; 12; 8; 40; 44; 40] else [0; 4; 0; 32; 36; 32]) /\
  Forall (fun b => Z.testbit b 0 = false)
         (i2c_bytes (nibble_events bl false 0 ++ nibble_events bl false 2)).
Proof.
  intros bl. assert (E := home_run T w).
  cbn [flat_map nibbles RETURN_HOME] in E. rewrite app_nil_r in E.
  change (high_nibble RETURN_HOME) with 0 in E.
  change (low_nibble RETURN_HOME) with 2 in E.
  split; [exact E|].
  split.
  { rewrite E. change (nibbles 2) with [0; 2].
    rewrite writes_run by (repeat constructor; lia).
    cbn [flat_map backlight regSelect with_regSelect]. now rewrite app_nil_r. }
  split; [destruct bl; reflexivity|].
  apply (nibbles_events_rs bl false [0; 2]). repeat constructor; lia.
Qed.





(** ** Messages: edges and composition *)

Lemma bind_assoc {A B C} (m : M A) (k : A -> M B) (h : B -> M C) w :
  bind (bind m k) h w = bind m (fun a => bind (k a) h) w.
Proof. unfold bind. destruct (m w) as [[a|s|] w']; reflexivity. Qed.

Lemma writeMessage_unterminated_run T (s : list char) :
  Forall (fun c => c <> 0) s ->
  forall w,
    writeMessage T s w =
    (Undefined, after_message s (logs (message_events (backlight w) s) w)).
Proof.
  induction 1 as [|c s Hc Hs IH]; intros w.
  - cbn. now rewrite logs_nil.
  - cbn [writeMessage]. apply Z.eqb_neq in Hc. rewrite Hc.
    run writeChar_run. rewrite IH.
    unfold message_events, message_nibbles. cbn [flat_map nibbles app].
    unfold char_events.
    f_equal. destruct s; unfold logs, with_regSelect; cbn [after_message
      backlight regSelect readWrite trace];
      now rewrite <- !app_assoc.
Qed.

(** X6: a buffer without a null makes [writeMessage] write every
    character of it and then read past its end: the outcome is undefined
    behaviour, after all the bytes have gone out. *)
Theorem writeMessage_unterminated (T : Transport) (s : list char) (w : World) :
  Forall (fun c => c <> 0) s ->
  fst (writeMessage T s w) = Undefined /\
  trace (snd (writeMessage T s w)) =
    trace w ++ message_events (backlight w) s /\
  List.length (i2c_bytes (message_events (backlight w) s)) =
    (6 * List.length s)%nat.
Proof.
  intros Hs. rewrite (writeMessage_unterminated_run T s Hs w).
  split; [reflexivity|]. split.
  - destruct s; reflexivity.
  - clear Hs. induction s as [|c s IH]; [reflexivity|].
    unfold message_events, message_nibbles in *. cbn [flat_map nibbles app].
    rewrite !i2c_bytes_app, !length_app, IH. cbn. lia.
Qed.

Lemma writeMessage_unterminated_witness :
  fst (writeMessage good_transport (chars "HI") boot) = Undefined.
Proof.
  apply (writeMessage_unterminated good_transport (chars "HI") boot).
  repeat constructor; discriminate.
Defined.

(** X7: writing a text and then what follows it in the buffer is the same
    as writing the buffer: for a text [s] without null,
    [writeMessage] on [s] followed by [rest] behaves as [writeMessage] on
    the terminated [s] followed by [writeMessage] on [rest]. *)
Theorem writeMessage_app (T : Transport) (s rest : list char) (w : World) :
  Forall (fun c => c <> 0) s ->
  writeMessage T (s ++ rest) w =
  (writeMessage T (s ++ [0]) ;; writeMessage T rest) w.
Proof.
  intros Hs. revert w. induction Hs as [|c s Hc Hs IH]; intros w.
  - reflexivity.
  - cbn [app writeMessage]. apply Z.eqb_neq in Hc. rewrite Hc.
    rewrite bind_assoc. run writeChar_run. symmetry. run writeChar_run.
    symmetry. apply IH.
Qed.

Lemma writeMessage_app_witness :
  writeMessage good_transport (literal "HI!") boot =
  (writeMessage good_transport (literal "HI") ;;
   writeMessage good_transport (literal "!")) boot.
Proof.
  apply (writeMessage_app good_transport (chars "HI") (literal "!") boot).
  repeat constructor; discriminate.
Defined.

(** X8: [clear], [home], [writeChar] and [writeMessage] on a buffer that
    starts with a character do not depend on the register [regSelect]
    selected before the call: they end in the same world with the same
    result. *)
Theorem calls_ignore_previous_regSelect
    (T : Transport) (b : bool) (c : char) (rest : list char) (w : World) :
  clear T (with_regSelect b w) = clear T w /\
  home T (with_regSelect b w) = home T w /\
  writeChar T c (with_regSelect b w) = writeChar T c w /\
  (c <> 0 ->
   writeMessage T (c :: rest) (with_regSelect b w) =
   writeMessage T (c :: rest) w).
Proof.
  rewrite !clear_run, !home_run, !writeChar_run.
  repeat split.
  intros Hc. cbn [writeMessage]. apply Z.eqb_neq in Hc. rewrite Hc.
  run writeChar_run. symmetry. run writeChar_run. reflexivity.
Qed.

Lemma calls_ignore_previous_regSelect_witness :
  writeMessage good_transport (literal "A") (with_regSelect false boot) =
  writeMessage good_transport (literal "A") boot.
Proof.
  apply (calls_ignore_previous_regSelect good_transport false 65 [0] boot).
  discriminate.
Defined.

(** ** The codes [encodeChar] produces *)

(** X9: for every character, the code [encodeChar] returns lies between
    0x20 and 0x7D and is never 0x5C; encoding a code again does not change
    it. *)
Theorem encodeChar_codes (c : char) :
  -128 <= c < 256 ->
  32 <= encodeChar c <= 125 /\
  encodeChar c <> 92 /\
  encodeChar (encodeChar c) = encodeChar c.
Proof.
  intros Hc.
  assert (Hall : forallb (fun c => negb (encodeChar c =? 92)
                                   && (encodeChar (encodeChar c) =? encodeChar c))
                         (zrange (-128) 384) = true) by (vm_compute; reflexivity).
  assert (H := zrange_check _ _ _ Hall c ltac:(lia)). cbv beta in H.
  apply andb_true_iff in H. destruct H as [H1 H2].
  apply negb_true_iff in H1.
  split; [apply encodeChar_range|]. split; lia.
Qed.

Lemma encodeChar_codes_witness : encodeChar (encodeChar 92) = encodeChar 92.
Proof. apply (encodeChar_codes 92). lia. Defined.

(** X10: two characters are given the same code only if they are the same
    character or both are shown as '?'; and a character is shown as '?'
    exactly when it is '?' or has no case of its own in the switch. *)
Theorem encodeChar_collisions (c1 c2 : char) :
  -128 <= c1 < 256 -> -128 <= c2 < 256 ->
  (encodeChar c1 = encodeChar c2 -> c1 = c2 \/ encodeChar c1 = 0x3F) /\
  (encodeChar c1 = 0x3F <-> c1 = 63 \/ in_table c1 = false).
Proof.
  intros H1 H2.
  assert (T : forall c, in_table c = true -> encodeChar c = c).
  { intros c Hc. unfold in_table in Hc.
    apply andb_true_iff in Hc. destruct Hc as [Hc Hn].
    apply andb_true_iff in Hc. destruct Hc as [Hl Hu].
    apply negb_true_iff in Hn. apply encodeChar_table; lia. }
  assert (D : forall c, -128 <= c < 256 -> in_table c = false ->
                        encodeChar c = 0x3F).
  { intros c Hr Hc. apply encodeChar_default; [exact Hr|].
    unfold in_table in Hc.
    destruct (Z.leb_spec 32 c), (Z.leb_spec c 125), (Z.eqb_spec c 92);
      cbn in Hc; try discriminate; lia. }
  split.
  - intros E. destruct (in_table c1) eqn:E1; [|right; now apply D].
    destruct (in_table c2) eqn:E2.
    + left. rewrite (T c1 E1), (T c2 E2) in E. exact E.
    + right. rewrite E. now apply D.
  - split.
    + intros E. destruct (in_table c1) eqn:E1; [|now right].
      left. rewrite (T c1 E1) in E. exact E.
    + intros [->|E]; [reflexivity | now apply D].
Qed.

Lemma encodeChar_collisions_witness :
  encodeChar 92 = 0x3F <-> 92 = 63 \/ in_table 92 = false.
Proof.
  apply (encodeChar_collisions 92 7); lia.
Defined.

(** ** Time and volume *)

Lemma slept_app es1 es2 : slept (es1 ++ es2) = slept es1 + slept es2.
Proof.
  induction es1 as [|e es1 IH]; [reflexivity|].
  destruct e; cbn [app slept]; lia.
Qed.

Lemma message_events_cons bl c s :
  message_events bl (c :: s) =
  nibble_events bl true (high_nibble (encodeChar c)) ++
  nibble_events bl true (low_nibble (encodeChar c)) ++
  message_events bl s.
Proof.
  unfold message_events, message_nibbles. cbn [flat_map nibbles app].
  reflexivity.
Qed.

Lemma message_events_volume bl s :
  List.length (i2c_bytes (message_events bl s)) = (6 * List.length s)%nat /\
  slept (message_events bl s) = 9000 * Z.of_nat (List.length s).
Proof.
  induction s as [|c s [IH1 IH2]]; [split; reflexivity|].
  rewrite message_events_cons. split.
  - rewrite !i2c_bytes_app, !length_app, IH1. cbn. lia.
  - rewrite !slept_app, IH2. cbn [List.length].
    change (slept (nibble_events bl true (high_nibble (encodeChar c)))) with 4500.
    change (slept (nibble_events bl true (low_nibble (encodeChar c)))) with 4500.
    lia.
Qed.

(** X11: writing a message of [n] characters takes [6 * n] I2C writes and
    keeps the caller in [usleep] for [9000 * n] microseconds. *)
Theorem writeMessage_cost (T : Transport) (s rest : list char) (w : World) :
  Forall (fun c => c <> 0) s ->
  exists es,
    trace (snd (writeMessage T (s ++ 0 :: rest) w)) = trace w ++ es /\
    List.length (i2c_bytes es) = (6 * List.length s)%nat /\
    slept es = 9000 * Z.of_nat (List.length s).
Proof.
  intros Hs. rewrite (writeMessage_run T s rest Hs w).
  exists (message_events (backlight w) s). split.
  - destruct s; reflexivity.
  - apply message_events_volume.
Qed.

Lemma writeMessage_cost_witness :
  exists es,
    trace (snd (writeMessage good_transport (literal "HI") boot)) =
      trace boot ++ es /\
    List.length (i2c_bytes es) = 12%nat /\ slept es = 18000.
Proof.
  apply (writeMessage_cost good_transport (chars "HI") [] boot).
  repeat constructor; discriminate.
Defined.






(** ** What the display reads *)

Lemma shiftr_enable f : Z.shiftr (Z.lor f ENABLE_BIT) 4 = Z.shiftr f 4.
Proof. rewrite Z.shiftr_lor. apply Z.lor_0_r. Qed.

Lemma sampled_pair hi lo rest :
  sampled (hi :: lo :: rest) =
  if Z.testbit hi 2 && negb (Z.testbit lo 2)
  then Z.shiftr hi 4 :: sampled (lo :: rest)
  else sampled (lo :: rest).
Proof. reflexivity. Qed.

Lemma sampled_low f rest :
  Z.testbit f 2 = false -> sampled (f :: rest) = sampled rest.
Proof.
  intros H. destruct rest as [|b r]; [reflexivity|].
  rewrite sampled_pair, H. reflexivity.
Qed.

Lemma sampled_latch f rest :
  Z.testbit f 2 = false ->
  sampled (latch_bytes f ++ rest) = Z.shiftr f 4 :: sampled rest.
Proof.
  intros H. unfold latch_bytes. cbn [app].
  rewrite (sampled_low f _ H).
  rewrite sampled_pair, enable_bit_high, H. cbn [negb andb].
  rewrite shiftr_enable. f_equal. now apply sampled_low.
Qed.

Lemma sampled_nibbles bl rs ns :
  Forall (fun n => 0 <= n < 16) ns ->
  sampled (i2c_bytes (flat_map (nibble_events bl rs) ns)) = ns.
Proof.
  induction 1 as [|n ns Hn Hns IH]; [reflexivity|].
  cbn [flat_map]. rewrite i2c_bytes_app, nibble_events_bytes.
  destruct (frame_bits bl rs n Hn) as (H4 & _ & H2 & _).
  fold (latch_bytes (frame bl rs n)).
  rewrite sampled_latch by exact H2. now rewrite H4, IH.
Qed.

Lemma joined_message s : joined (message_nibbles s) = map encodeChar s.
Proof.
  induction s as [|c s IH]; [reflexivity|].
  unfold message_nibbles in *. cbn [flat_map nibbles app joined map].
  rewrite IH. f_equal. apply nibbles_join.
  assert (H := encodeChar_range c). lia.
Qed.

(** X13: what [writeMessage] puts on the bus, sampled at the falling
    edges of enable and joined two nibbles at a time, is the list of the
    codes of the characters of the message; for characters with a case of
    their own in the switch it is the message itself. *)
Theorem writeMessage_read_back
    (T : Transport) (s rest : list char) (w : World) :
  Forall (fun c => c <> 0) s ->
  exists es,
    trace (snd (writeMessage T (s ++ 0 :: rest) w)) = trace w ++ es /\
    joined (sampled (i2c_bytes es)) = map encodeChar s /\
    (forallb in_table s = true -> joined (sampled (i2c_bytes es)) = s).
Proof.
  intros Hs. rewrite (writeMessage_run T s rest Hs w).
  exists (message_events (backlight w) s).
  assert (E : joined (sampled (i2c_bytes (message_events (backlight w) s)))
              = map encodeChar s).
  { unfold message_events.
    rewrite sampled_nibbles by apply message_nibbles_range.
    apply joined_message. }
  split; [destruct s; reflexivity|]. split; [exact E|].
  intros Ht. rewrite E. clear E Hs.
  induction s as [|c s IH]; [reflexivity|].
  cbn [forallb map] in *. apply andb_true_iff in Ht. destruct Ht as [Hc Ht].
  rewrite (IH Ht). f_equal.
  unfold in_table in Hc.
  apply andb_true_iff in Hc. destruct Hc as [Hc Hn].
  apply andb_true_iff in Hc. destruct Hc as [Hl Hu].
  apply negb_true_iff in Hn. apply encodeChar_table; lia.
Qed.

Lemma writeMessage_read_back_witness :
  exists es,
    trace (snd (writeMessage good_transport (literal "HI") boot)) =
      trace boot ++ es /\
    joined (sampled (i2c_bytes es)) = chars "HI".
Proof.
  assert (H : Forall (fun c => c <> 0) (chars "HI"))
    by (repeat constructor; discriminate).
  destruct (writeMessage_read_back good_transport (chars "HI") [] boot H)
    as (es & H1 & _ & H3).
  exists es. split; [exact H1 | apply H3; reflexivity].
Defined.

(** ** The date string *)

Lemma date_format_chars :
  Clock.date_format =
  [37; 109; 47; 37; 100; 32; 32; 32; 32; 32; 32; 37; 73; 58; 37; 77].
Proof. reflexivity. Qed.

Lemma expand_date_format t : Clock.expand Clock.date_format t = Some (date_text t).
Proof.
  rewrite date_format_chars.
  cbn [Clock.expand Clock.conversion Z.eqb Pos.eqb]. reflexivity.
Qed.

Lemma two_digits_are_digits n :
  0 <= n < 100 -> Forall (fun c => 48 <= c <= 57) (Clock.two_digits n).
Proof.
  intros H. unfold Clock.two_digits.
  assert (0 <= n / 10 < 10)
    by (split; [apply Z.div_pos; lia | apply Z.div_lt_upper_bound; lia]).
  assert (0 <= n mod 10 < 10) by (apply Z.mod_pos_bound; lia).
  repeat constructor; lia.
Qed.

Lemma hour12_range h : 0 <= h <= 23 -> 1 <= Clock.hour12 h <= 12.
Proof.
  intros H. unfold Clock.hour12.
  assert (0 <= h mod 12 < 12) by (apply Z.mod_pos_bound; lia).
  destruct (Z.eqb_spec (h mod 12) 0); lia.
Qed.

(** X14: the buffer of [getDate] is one character too small.  For every
    broken-down time the format stands for a text of exactly 16
    characters (two digits, '/', two digits, six spaces, two digits, ':',
    two digits), which with its terminating null needs 17; the array has
    16, so [strftime] fails and the string [getDate] returns is built from
    an array of indeterminate content.  An array of 17 would receive the
    text. *)
Theorem getDate_buffer_too_small (t : Clock.tm) :
  Clock.valid_tm t ->
  Clock.expand Clock.date_format t = Some (date_text t) /\
  List.length (date_text t) = 16%nat /\
  Forall (fun c => 48 <= c <= 57 \/ c = 47 \/ c = 32 \/ c = 58) (date_text t) /\
  Clock.getDate t = Some Clock.Indeterminate /\
  Clock.strftime (Clock.buf_size + 1) Clock.date_format t =
    Some (Clock.Placed (date_text t)).
Proof.
  intros (Hmin & Hhour & Hday & Hmon).
  split; [apply expand_date_format|].
  split; [reflexivity|].
  split.
  { assert (D : forall n, 0 <= n < 100 ->
                 Forall (fun c => 48 <= c <= 57 \/ c = 47 \/ c = 32 \/ c = 58)
                        (Clock.two_digits n)).
    { intros n Hn. eapply Forall_impl; [|apply (two_digits_are_digits n Hn)].
      cbv beta. intros c Hc. now left. }
    assert (Hh := hour12_range _ Hhour).
    unfold date_text. repeat (apply Forall_app; split);
      try (apply D; lia); repeat constructor; lia. }
  unfold Clock.getDate, Clock.strftime. rewrite expand_date_format.
  split; reflexivity.
Qed.

Lemma getDate_buffer_too_small_witness :
  Clock.getDate
    {| Clock.tm_min := 5; Clock.tm_hour := 14;
       Clock.tm_mday := 30; Clock.tm_mon := 9 |} = Some Clock.Indeterminate.
Proof.
  apply (getDate_buffer_too_small
           {| Clock.tm_min := 5; Clock.tm_hour := 14;
              Clock.tm_mday := 30; Clock.tm_mon := 9 |}).
  unfold Clock.valid_tm. cbn. lia.
Defined.

(** ** The response buffer *)

Lemma deliver_app cbs1 cbs2 s :
  deliver (cbs1 ++ cbs2) s = deliver cbs2 (deliver cbs1 s).
Proof. unfold deliver. apply fold_left_app. Qed.

Lemma deliver_no_headers cbs :
  no_headers cbs = true ->
  forall s,
    HttpSend.responseData (deliver cbs s) =
    HttpSend.responseData s ++ payload cbs.
Proof.
  induction cbs as [|cb cbs IH]; intros H s.
  - cbn. now rewrite app_nil_r.
  - cbn [no_headers forallb] in H. apply andb_true_iff in H.
    destruct H as [Hcb H]. change (deliver (cb :: cbs) s)
      with (deliver cbs (HttpSend.invoke cb s)).
    rewrite (IH H). destruct cb; cbn in Hcb; try discriminate.
    + cbn. now rewrite <- app_assoc.
    + cbn. reflexivity.
Qed.

(** X15: [authenticateUser] returns the data of the last response only:
    if the library reports headers and no further headers after them, the
    result is the bytes received after those headers, whatever
    [responseData] held before and whatever was received earlier; and the
    result stays in [responseData]. *)
Theorem authenticateUser_last_response
    (library : list char -> list HttpSend.Callback) (userid : list char)
    (s : HttpSend.State) (before after : list HttpSend.Callback)
    (status : Z) (reason : list char) :
  library userid = before ++ HttpSend.HeadersReady status reason :: after ->
  no_headers after = true ->
  fst (HttpSend.authenticateUser library userid s) = payload after /\
  HttpSend.responseData (snd (HttpSend.authenticateUser library userid s)) =
    payload after.
Proof.
  intros Hl Ha. unfold HttpSend.authenticateUser. cbv zeta. cbn [fst snd].
  fold (deliver (library userid) (HttpSend.print HttpSend.AuthenticatingLine s)).
  rewrite Hl, deliver_app.
  change (deliver (HttpSend.HeadersReady status reason :: after) ?x)
    with (deliver after (HttpSend.headersReady status reason x)).
  cbn [HttpSend.print HttpSend.responseData].
  rewrite (deliver_no_headers after Ha). split; reflexivity.
Qed.

Lemma authenticateUser_last_response_witness :
  fst (HttpSend.authenticateUser
         (fun _ => [HttpSend.ReceiveData [1]; HttpSend.HeadersReady 200 [];
                    HttpSend.ReceiveData [79]; HttpSend.ReceiveData [75];
                    HttpSend.ResponseComplete])
         [49] {| HttpSend.responseData := [7]; HttpSend.console := [] |})
  = [79; 75].
Proof.
  apply (authenticateUser_last_response _ [49] _
           [HttpSend.ReceiveData [1]]
           [HttpSend.ReceiveData [79]; HttpSend.ReceiveData [75];
            HttpSend.ResponseComplete] 200 []); reflexivity.
Defined.

(** X16: [authenticateUser] does not empty [responseData] itself.  If the
    library reports no headers during the call, the result is what
    [responseData] held before the call followed by the bytes received;
    with no callback at all it is the result of the previous call. *)
Theorem authenticateUser_stale_response
    (library : list char -> list HttpSend.Callback) (userid : list char)
    (s : HttpSend.State) :
  no_headers (library userid) = true ->
  fst (HttpSend.authenticateUser library userid s) =
    HttpSend.responseData s ++ payload (library userid) /\
  (library userid = [] ->
   fst (HttpSend.authenticateUser library userid s) = HttpSend.responseData s).
Proof.
  intros Hn.
  assert (E : fst (HttpSend.authenticateUser library userid s) =
              HttpSend.responseData s ++ payload (library userid)).
  { unfold HttpSend.authenticateUser. cbv zeta. cbn [fst].
    fold (deliver (library userid)
                  (HttpSend.print HttpSend.AuthenticatingLine s)).
    cbn [HttpSend.print HttpSend.responseData].
    now rewrite (deliver_no_headers _ Hn). }
  split; [exact E|].
  intros H0. rewrite E, H0. cbn. now rewrite app_nil_r.
Qed.

Lemma authenticateUser_stale_response_witness :
  fst (HttpSend.authenticateUser (fun _ => []) [50]
         {| HttpSend.responseData := [79; 75]; HttpSend.console := [] |})
  = [79; 75].
Proof.
  apply (authenticateUser_stale_response (fun _ => []) [50]
           {| HttpSend.responseData := [79; 75]; HttpSend.console := [] |});
    reflexivity.
Defined.
